(** * Shallow embedding of the super-chat room client

    The room-session logic lives in [src/src/components/ChatBox.tsx]
    (the second, current [ChatBox] component of that file) and the composer
    with its upload lifecycle in [src/src/components/MessageInput.tsx]
    (the [forwardRef] component).  React state is modelled as a record;
    each socket handler or user callback is a function on that record.
    A [setState] followed by a re-render is a plain field update: React
    keeps the last value written, which is what sequential updates give. *)

From Stdlib Require Import ZArith Bool List String Ascii Lia.
From stdpp Require Import base gmap strings list.
Import ListNotations.
Open Scope Z_scope.

(** ** ChatBox.tsx *)
Module ChatBox.

(** A reaction count as a message holds it.  The server sends numbers; the
    [+ 1] of the [message-reaction] updater can also store a string (see
    [plus_one]). *)
Inductive RVal := RNum (n : Z) | RStr (s : string).

(** [type Message] *)
Record Message := mkMessage {
  id : string;
  sender : string;
  text : string;
  timestamp : string;
  reactions : option (gmap string RVal); (* reactions?: Record<string, number> *)
  replyTo : option string;              (* replyTo?: string | null *)
  imageUrl : option string;
  videoUrl : option string
}.

Inductive Status := Online | TypingStatus | Offline.

(** [type User] *)
Record User := mkUser { userName_of : string; status : Status }.

(** Events the client emits on the socket. *)
Inductive Outbound :=
| JoinRoom (room userName : string)
| SendMessage (room text : string) (replyTo : option string)
              (imageUrl videoUrl : option string)
| ReactMessage (room messageId reaction : string)
| TypingOut (room : string).

(** Events the server delivers on the socket, plus the user's keystrokes
    reaching [handleTyping] (the [onTyping] prop of the composer), with the
    [Date.now()] value at the call. *)
Inductive Event :=
| Connect
| Disconnect
| UserList (users : list User)
| TypingIn (typingUsersList : list string)
| RecentMessages (msgs : list Message)
| ReceiveMessage (msg : Message)
| MessageReaction (messageId reaction : string)
| Keystroke (now : Z).

(** The component's state.  [socket] is [socketRef.current !== null];
    [lastEmit] is the variable captured by the [handleTyping] closure of
    the current render; [outbox] records every [socket.emit]. *)
Record ChatState := mkChat {
  room : string;
  userName : string;
  messages : list Message;
  socketConnected : bool;
  activeUsers : list User;
  typingUsers : list string;
  replyingTo : option Message;
  newMessagesIndicator : bool;
  isAtBottom : bool;
  socket : bool;
  lastEmit : Z;
  outbox : list Outbound
}.

Definition set_messages (ms : list Message) (s : ChatState) : ChatState :=
  mkChat (room s) (userName s) ms (socketConnected s) (activeUsers s)
    (typingUsers s) (replyingTo s) (newMessagesIndicator s) (isAtBottom s)
    (socket s) (lastEmit s) (outbox s).

Definition set_socketConnected (b : bool) (s : ChatState) : ChatState :=
  mkChat (room s) (userName s) (messages s) b (activeUsers s)
    (typingUsers s) (replyingTo s) (newMessagesIndicator s) (isAtBottom s)
    (socket s) (lastEmit s) (outbox s).

Definition set_activeUsers (us : list User) (s : ChatState) : ChatState :=
  mkChat (room s) (userName s) (messages s) (socketConnected s) us
    (typingUsers s) (replyingTo s) (newMessagesIndicator s) (isAtBottom s)
    (socket s) (lastEmit s) (outbox s).

Definition set_typingUsers (ts : list string) (s : ChatState) : ChatState :=
  mkChat (room s) (userName s) (messages s) (socketConnected s)
    (activeUsers s) ts (replyingTo s) (newMessagesIndicator s) (isAtBottom s)
    (socket s) (lastEmit s) (outbox s).

Definition set_replyingTo (r : option Message) (s : ChatState) : ChatState :=
  mkChat (room s) (userName s) (messages s) (socketConnected s)
    (activeUsers s) (typingUsers s) r (newMessagesIndicator s) (isAtBottom s)
    (socket s) (lastEmit s) (outbox s).

Definition set_newMessagesIndicator (b : bool) (s : ChatState) : ChatState :=
  mkChat (room s) (userName s) (messages s) (socketConnected s)
    (activeUsers s) (typingUsers s) (replyingTo s) b (isAtBottom s)
    (socket s) (lastEmit s) (outbox s).

Definition set_lastEmit (t : Z) (s : ChatState) : ChatState :=
  mkChat (room s) (userName s) (messages s) (socketConnected s)
    (activeUsers s) (typingUsers s) (replyingTo s) (newMessagesIndicator s)
    (isAtBottom s) (socket s) t (outbox s).

Definition emit (o : Outbound) (s : ChatState) : ChatState :=
  mkChat (room s) (userName s) (messages s) (socketConnected s)
    (activeUsers s) (typingUsers s) (replyingTo s) (newMessagesIndicator s)
    (isAtBottom s) (socket s) (lastEmit s) (outbox s ++ [o]).

(** [{ ...msg, reactions: r }] *)
Definition with_reactions (r : option (gmap string RVal)) (m : Message) : Message :=
  mkMessage (id m) (sender m) (text m) (timestamp m) r (replyTo m)
    (imageUrl m) (videoUrl m).

(** A JavaScript value read from a reactions object: [undefined], a number,
    a string, or an object (a function), given by its string conversion. *)
Inductive JSVal := JUndefined | JNum (n : Z) | JStr (s : string) | JObj (str : string).

(** The members a plain object inherits from [Object.prototype], with the
    string conversion of each ([String(Object.prototype)] for [__proto__],
    V8's source text for the native functions). *)
Definition proto_member (k : string) : option string :=
  if String.eqb k "__proto__" then Some "[object Object]"%string
  else if String.eqb k "constructor" then
    Some "function Object() { [native code] }"%string
  else if existsb (String.eqb k)
            ["toString"; "toLocaleString"; "valueOf"; "hasOwnProperty";
             "isPrototypeOf"; "propertyIsEnumerable"; "__defineGetter__";
             "__defineSetter__"; "__lookupGetter__"; "__lookupSetter__"]%string
  then Some ("function " ++ k ++ "() { [native code] }")%string
  else None.

Definition rval_js (v : RVal) : JSVal :=
  match v with RNum n => JNum n | RStr t => JStr t end.

(** [msg.reactions?.[reaction]]: [undefined] when [reactions] is absent,
    otherwise the own property, otherwise the inherited one. *)
Definition js_read (m : Message) (k : string) : JSVal :=
  match reactions m with
  | None => JUndefined
  | Some r =>
      match r !! k with
      | Some v => rval_js v
      | None => match proto_member k with Some f => JObj f | None => JUndefined end
      end
  end.

(** [(x || 0) + 1]: a falsy [x] ([undefined], [0], [""]) gives 1, a number
    adds one, a string or an object is converted to a string and gets ["1"]
    appended. *)
Definition plus_one (v : JSVal) : RVal :=
  match v with
  | JUndefined => RNum 1
  | JNum n => RNum (n + 1)
  | JStr t => if String.eqb t "" then RNum 1 else RStr (t ++ "1")%string
  | JObj f => RStr (f ++ "1")%string
  end.

(** The count a message holds for a symbol: the own property of its
    reactions object (what [Object.entries] lists), 0 when there is none. *)
Definition reaction_count (m : Message) (reaction : string) : RVal :=
  match reactions m with
  | Some r => default (RNum 0) (r !! reaction)
  | None => RNum 0
  end.

(** The updater of [message-reaction]:
    [msg.id === messageId ? { ...msg, reactions: { ...msg.reactions,
       [reaction]: (msg.reactions?.[reaction] || 0) + 1 } } : msg];
    spreading an undefined [msg.reactions] gives [{}], and the computed key
    makes an own property (also for ["__proto__"]). *)
Definition bump (messageId reaction : string) (msg : Message) : Message :=
  if String.eqb (id msg) messageId then
    with_reactions
      (Some (<[reaction := plus_one (js_read msg reaction)]>
               (default ∅ (reactions msg)))) msg
  else msg.

(** [socket.on("recent-messages", (msgs) => setMessages(msgs))] *)
Definition on_recent_messages (msgs : list Message) (s : ChatState) : ChatState :=
  set_messages msgs s.

(** [socket.on("receive-message", ...)]:
    [setMessages((prev) => [...prev, { ...msg, reactions: {} }]);
     if (!isAtBottom) setNewMessagesIndicator(true)] *)
Definition on_receive_message (msg : Message) (s : ChatState) : ChatState :=
  let s := set_messages (messages s ++ [with_reactions (Some ∅) msg]) s in
  if negb (isAtBottom s) then set_newMessagesIndicator true s else s.

(** [socket.on("message-reaction", ...)]: [setMessages((prev) => prev.map(...))] *)
Definition on_message_reaction (messageId reaction : string) (s : ChatState)
  : ChatState :=
  set_messages (map (bump messageId reaction) (messages s)) s.

(** [socket.on("typing", ...)]:
    [setTypingUsers(typingUsersList.filter((u) => u !== userName))]
    (the [Array.isArray] guard holds: the payload is a list here). *)
Definition on_typing (typingUsersList : list string) (s : ChatState) : ChatState :=
  set_typingUsers
    (List.filter (fun u => negb (String.eqb u (userName s))) typingUsersList) s.

(** [socket.on("connect", ...)]: [setSocketConnected(true);
    socket.emit("join-room", { room, userName })] *)
Definition on_connect (s : ChatState) : ChatState :=
  emit (JoinRoom (room s) (userName s)) (set_socketConnected true s).

(** The [handleTyping] closure built by the IIFE during a render:
    [if (now - lastEmit > 1000 && socketRef.current) {
       socketRef.current.emit("typing", { room }); lastEmit = now; }] *)
Definition handleTyping (now : Z) (s : ChatState) : ChatState :=
  if (now - lastEmit s >? 1000) && socket s then
    set_lastEmit now (emit (TypingOut (room s)) s)
  else s.

(** Whether processing an event re-renders [ChatBox].  React re-renders
    when a [setState] stores a value not [Object.is]-equal to the current
    one: [setMessages] with a fresh array ([[...prev, m]], [prev.map(...)],
    the payload array), [setTypingUsers] with the array built by [filter]
    and [setActiveUsers] with the payload array always do; the boolean
    [setSocketConnected] does when the flag flips.  A keystroke only
    updates [MessageInput]'s own state. *)
Definition rerenders (e : Event) (s : ChatState) : bool :=
  match e with
  | Connect => negb (socketConnected s)
  | Disconnect => socketConnected s
  | UserList _ | TypingIn _ | RecentMessages _ | ReceiveMessage _
  | MessageReaction _ _ => true
  | Keystroke _ => false
  end.

(** A render evaluates [(() => { let lastEmit = 0; return () => ... })()]
    again: the new [handleTyping] closure starts from [lastEmit = 0]. *)
Definition render (s : ChatState) : ChatState := set_lastEmit 0 s.

Definition handle (e : Event) (s : ChatState) : ChatState :=
  match e with
  | Connect => on_connect s
  | Disconnect => set_socketConnected false s
  | UserList us => set_activeUsers us s
  | TypingIn l => on_typing l s
  | RecentMessages msgs => on_recent_messages msgs s
  | ReceiveMessage m => on_receive_message m s
  | MessageReaction mid r => on_message_reaction mid r s
  | Keystroke now => handleTyping now s
  end.

Definition step (s : ChatState) (e : Event) : ChatState :=
  let s' := handle e s in
  if rerenders e s then render s' else s'.

Definition run (s : ChatState) (es : list Event) : ChatState :=
  fold_left step es s.

(** [sendMessage(text, imageUrl, videoUrl)]:
    [if (!socketRef.current) return; socketRef.current.emit("send-message",
       { room, message: { text, replyTo: replyingTo?.id || null, imageUrl,
       videoUrl } }); setReplyingTo(null); scrollToBottom();] *)
Definition sendMessage (txt : string) (img vid : option string) (s : ChatState)
  : ChatState :=
  if socket s then
    let reply :=
      match replyingTo s with
      | Some m => if String.eqb (id m) "" then None else Some (id m)
      | None => None
      end in
    set_replyingTo None (emit (SendMessage (room s) txt reply img vid) s)
  else s.

(** The state at mount: [useState] initial values, socket created. *)
Definition init (room userName : string) : ChatState :=
  mkChat room userName [] false [] [] None false true true 0 [].

(** [handleReply(msg)]: [setReplyingTo(msg); setSwipeProgress(null)], then a
    timer that scrolls to, highlights and focuses (DOM only). *)
Definition handleReply (m : Message) (s : ChatState) : ChatState :=
  set_replyingTo (Some m) s.

(** [messages.find((m) => m.id === msg.replyTo)] *)
Definition find_by_id (target : string) (msgs : list Message) : option Message :=
  List.find (fun m => String.eqb (id m) target) msgs.

(** The quoted text of a reply in [renderMessageItem]:
    [messages.find(...)?.text || "Message"]. *)
Definition reply_preview_text (msgs : list Message) (target : string) : string :=
  match find_by_id target msgs with
  | Some m => if String.eqb (text m) "" then "Message" else text m
  | None => "Message"
  end.

(** The quoted sender: [find(...)?.sender === userName ? "You" :
    find(...)?.sender]; [None] is the [undefined] of a missing target. *)
Definition reply_preview_sender (msgs : list Message) (me target : string)
  : option string :=
  match find_by_id target msgs with
  | Some m => Some (if String.eqb (sender m) me then "You"%string else sender m)
  | None => None
  end.

End ChatBox.

(** ** MessageInput.tsx *)
Module MessageInput.

Inductive Kind := Image | Video.

(** A [File]: its MIME type and its size in bytes. *)
Record File := mkFile { ftype : string; fsize : Z }.

Definition MAX_FILE_SIZE_MB : Z := 20.
Definition MAX_VIDEO_SIZE_MB : Z := 50.
Definition VALID_MIME_TYPES : list string :=
  ["image/jpeg"; "image/png"; "image/gif"; "image/webp"]%string.
Definition VALID_VIDEO_MIME_TYPES : list string :=
  ["video/mp4"; "video/webm"; "video/ogg"; "video/quicktime"]%string.

(** [Array.prototype.includes] on strings. *)
Definition includes (l : list string) (x : string) : bool :=
  existsb (String.eqb x) l.

(** JavaScript truthiness of a [string | null]: [null] and [""] are falsy. *)
Definition truthy (s : option string) : bool :=
  match s with Some v => negb (String.eqb v "") | None => false end.

(** [x || undefined] for a [string | null]. *)
Definition or_undefined (s : option string) : option string :=
  if truthy s then s else None.

(** [String.prototype.trim].  The composer's strings are held as the UTF-8
    encoding of the JavaScript string.  A code point of [WhiteSpace] or
    [LineTerminator] is one of U+0009 to U+000D, U+0020, U+00A0, U+1680,
    U+2000 to U+200A, U+2028, U+2029, U+202F, U+205F, U+3000 and U+FEFF;
    [is_js_space] recognises the encoding of one of them. *)
Definition is_js_space (cp : list ascii) : bool :=
  match map nat_of_ascii cp with
  | [a] => existsb (Nat.eqb a) [9; 10; 11; 12; 13; 32]
  | [a; b] => (a =? 194) && (b =? 160)
  | [a; b; c] =>
      ((a =? 225) && (b =? 154) && (c =? 128))
      || ((a =? 226) && (b =? 128)
          && (((128 <=? c) && (c <=? 138)) || (c =? 168) || (c =? 169) || (c =? 175)))
      || ((a =? 226) && (b =? 129) && (c =? 159))
      || ((a =? 227) && (b =? 128) && (c =? 128))
      || ((a =? 239) && (b =? 187) && (c =? 191))
  | _ => false
  end%nat.

(** Drops the white space at the front of an encoded string. *)
Fixpoint drop_spaces (l : list ascii) : list ascii :=
  match l with
  | [] => []
  | a :: l1 =>
      if is_js_space [a] then drop_spaces l1 else
      match l1 with
      | b :: l2 =>
          if is_js_space [a; b] then drop_spaces l2 else
          match l2 with
          | c :: l3 => if is_js_space [a; b; c] then drop_spaces l3 else l
          | [] => l
          end
      | [] => l
      end
  end.

(** Drops the white space at the end of an encoded string, given reversed. *)
Fixpoint drop_spaces_rev (l : list ascii) : list ascii :=
  match l with
  | [] => []
  | a :: l1 =>
      if is_js_space [a] then drop_spaces_rev l1 else
      match l1 with
      | b :: l2 =>
          if is_js_space [b; a] then drop_spaces_rev l2 else
          match l2 with
          | c :: l3 => if is_js_space [c; b; a] then drop_spaces_rev l3 else l
          | [] => l
          end
      | [] => l
      end
  end.

Definition trim (s : string) : string :=
  string_of_list_ascii
    (rev (drop_spaces_rev (rev (drop_spaces (list_ascii_of_string s))))).

(** The observable actions of the composer: object URLs created and
    revoked, requests sent and aborted.  URLs and requests are named by
    numbers drawn from one counter. *)
Inductive Effect :=
| CreateObjectURL (u : nat)
| RevokeObjectURL (u : nat)
| XhrSend (x : nat) (k : Kind)
| XhrAbort (x : nat).

(** The component's state: its [useState] cells and the two refs
    [previewUrlRef] and [xhrRef]. *)
Record Composer := mkComposer {
  message : string;
  imageUrl : option string;
  videoUrl : option string;
  previewUrl : option nat;
  previewKind : option Kind;
  uploading : bool;
  uploadProgress : Z;
  error : option string;
  previewUrlRef : option nat;
  xhrRef : option nat
}.

(** The composer in its environment: [inflight] lists the requests sent and
    not finished, each with the [kind] and [preview] its handlers closed
    over; [live] the object URLs not revoked; [configPresent] whether both
    Cloudinary environment variables are set. *)
Record World := mkWorld {
  comp : Composer;
  inflight : list (nat * Kind * nat);
  live : list nat;
  fresh : nat;
  effects : list Effect;
  configPresent : bool
}.

Definition upd (f : Composer -> Composer) (w : World) : World :=
  mkWorld (f (comp w)) (inflight w) (live w) (fresh w) (effects w)
    (configPresent w).

Definition set_message v c := mkComposer v (imageUrl c) (videoUrl c)
  (previewUrl c) (previewKind c) (uploading c) (uploadProgress c) (error c)
  (previewUrlRef c) (xhrRef c).
Definition set_imageUrl v c := mkComposer (message c) v (videoUrl c)
  (previewUrl c) (previewKind c) (uploading c) (uploadProgress c) (error c)
  (previewUrlRef c) (xhrRef c).
Definition set_videoUrl v c := mkComposer (message c) (imageUrl c) v
  (previewUrl c) (previewKind c) (uploading c) (uploadProgress c) (error c)
  (previewUrlRef c) (xhrRef c).
Definition set_previewUrl v c := mkComposer (message c) (imageUrl c)
  (videoUrl c) v (previewKind c) (uploading c) (uploadProgress c) (error c)
  (previewUrlRef c) (xhrRef c).
Definition set_previewKind v c := mkComposer (message c) (imageUrl c)
  (videoUrl c) (previewUrl c) v (uploading c) (uploadProgress c) (error c)
  (previewUrlRef c) (xhrRef c).
Definition set_uploading v c := mkComposer (message c) (imageUrl c)
  (videoUrl c) (previewUrl c) (previewKind c) v (uploadProgress c) (error c)
  (previewUrlRef c) (xhrRef c).
Definition set_uploadProgress v c := mkComposer (message c) (imageUrl c)
  (videoUrl c) (previewUrl c) (previewKind c) (uploading c) v (error c)
  (previewUrlRef c) (xhrRef c).
Definition set_error v c := mkComposer (message c) (imageUrl c)
  (videoUrl c) (previewUrl c) (previewKind c) (uploading c)
  (uploadProgress c) v (previewUrlRef c) (xhrRef c).
Definition set_previewUrlRef v c := mkComposer (message c) (imageUrl c)
  (videoUrl c) (previewUrl c) (previewKind c) (uploading c)
  (uploadProgress c) (error c) v (xhrRef c).
Definition set_xhrRef v c := mkComposer (message c) (imageUrl c)
  (videoUrl c) (previewUrl c) (previewKind c) (uploading c)
  (uploadProgress c) (error c) (previewUrlRef c) v.

Definition log (e : Effect) (w : World) : World :=
  mkWorld (comp w) (inflight w) (live w) (fresh w) (effects w ++ [e])
    (configPresent w).

(** [URL.revokeObjectURL(u)] *)
Definition revokeObjectURL (u : nat) (w : World) : World :=
  log (RevokeObjectURL u)
    (mkWorld (comp w) (inflight w) (remove Nat.eq_dec u (live w)) (fresh w)
       (effects w) (configPresent w)).

(** [URL.createObjectURL(file)]: a fresh URL. *)
Definition createObjectURL (w : World) : nat * World :=
  let u := fresh w in
  (u, log (CreateObjectURL u)
        (mkWorld (comp w) (inflight w) (live w ++ [u]) (S u) (effects w)
           (configPresent w))).

(** [if (previewUrlRef.current) { URL.revokeObjectURL(previewUrlRef.current);
      previewUrlRef.current = null; }] *)
Definition release_preview (w : World) : World :=
  match previewUrlRef (comp w) with
  | Some u => upd (set_previewUrlRef None) (revokeObjectURL u w)
  | None => w
  end.

(** [handleUploadError(message)] (the file input reset is DOM only). *)
Definition handleUploadError (msg : string) (w : World) : World :=
  let w := upd (set_uploading false) (upd (set_error (Some msg)) w) in
  let w := release_preview w in
  upd (set_previewKind None) (upd (set_previewUrl None) w).

Definition is_inflight (x : nat) (w : World) : bool :=
  existsb (fun '(y, _, _) => Nat.eqb x y) (inflight w).

Definition finish (x : nat) (w : World) : World :=
  mkWorld (comp w) (List.filter (fun '(y, _, _) => negb (Nat.eqb x y)) (inflight w))
    (live w) (fresh w) (effects w) (configPresent w).

(** [xhr.abort()]: on a request still in flight the [abort] event is
    dispatched synchronously, running [xhr.onabort], which is
    [handleUploadError("Upload aborted")]; on a finished request it does
    nothing. *)
Definition xhr_abort (x : nat) (w : World) : World :=
  if is_inflight x w then
    handleUploadError "Upload aborted" (finish x (log (XhrAbort x) w))
  else log (XhrAbort x) w.

(** [cancelUpload()] *)
Definition cancelUpload (w : World) : World :=
  let w := match xhrRef (comp w) with
           | Some x => upd (set_xhrRef None) (xhr_abort x w)
           | None => w
           end in
  let w := release_preview w in
  let w := upd (set_previewUrl None) w in
  let w := upd (set_imageUrl None) w in
  let w := upd (set_videoUrl None) w in
  let w := upd (set_previewKind None) w in
  let w := upd (set_uploading false) w in
  upd (set_error None) w.

(** [validateFile(file, kind)]: [None] when it returns [true], otherwise
    the message it passes to [setError] before returning [false]. *)
Definition validateFile (file : File) (kind : Kind) : option string :=
  match kind with
  | Image =>
      if negb (includes VALID_MIME_TYPES (ftype file)) then
        Some "Unsupported file type. Please upload an image (JPEG, PNG, GIF, WEBP)."%string
      else if fsize file >? MAX_FILE_SIZE_MB * 1024 * 1024 then
        Some "File size exceeds limit (max 20MB)"%string
      else None
  | Video =>
      if negb (includes VALID_VIDEO_MIME_TYPES (ftype file)) then
        Some "Unsupported file type. Please upload a video (MP4, WebM, OGG, MOV)."%string
      else if fsize file >? MAX_VIDEO_SIZE_MB * 1024 * 1024 then
        Some "File size exceeds limit (max 50MB)"%string
      else None
  end.

(** [file.type.startsWith("video/") ? "video" : "image"] *)
Definition kind_of (file : File) : Kind :=
  if String.prefix "video/" (ftype file) then Video else Image.

(** [startMediaUpload(file, kind, preview)] up to [xhr.send(formData)]. *)
Definition startMediaUpload (kind : Kind) (preview : nat) (w : World) : World :=
  let w := upd (set_error None) (upd (set_uploadProgress 0)
             (upd (set_uploading true) w)) in
  if negb (configPresent w) then
    handleUploadError "Cloudinary configuration is missing" w
  else
    let x := fresh w in
    let w := mkWorld (set_xhrRef (Some x) (comp w))
               (inflight w ++ [(x, kind, preview)]) (live w) (S x)
               (effects w) (configPresent w) in
    log (XhrSend x kind) w.

(** [handleFile(file)] for a non-null file. *)
Definition handleFile (file : File) (w : World) : World :=
  let w := upd (set_error None) w in
  let kind := kind_of file in
  match validateFile file kind with
  | Some msg => upd (set_error (Some msg)) w
  | None =>
      let w := upd (set_videoUrl None) (upd (set_imageUrl None) w) in
      let w := release_preview w in
      let '(preview, w) := createObjectURL w in
      let w := upd (set_previewKind (Some kind))
                 (upd (set_previewUrl (Some preview))
                    (upd (set_previewUrlRef (Some preview)) w)) in
      startMediaUpload kind preview w
  end.

(** [handleDrop(e)]: [if (files.length > 0) handleFile(files[0])]. *)
Definition handleDrop (files : list File) (w : World) : World :=
  match files with
  | f :: _ => handleFile f w
  | [] => w
  end.

(** What [onload] reads from [JSON.parse(xhr.responseText)] when it gives an
    object: [secure_url], [error.message] and [message], each a string or
    absent. *)
Record Body := mkBody {
  secure_url : option string;
  error_message : option string;
  body_message : option string
}.

(** The finished request: [xhr.status], [xhr.statusText] and the parsed
    body, [None] when [JSON.parse] throws or gives [null]. *)
Record Response := mkResponse {
  status : Z;
  statusText : string;
  body : option Body
}.

(** [detailedMessage]: [parsed?.error?.message || parsed?.message || null],
    and [null] when the parse throws. *)
Definition detailed_message (b : option Body) : option string :=
  match b with
  | Some b =>
      if truthy (error_message b) then error_message b
      else if truthy (body_message b) then body_message b
      else None
  | None => None
  end.

(** [detailedMessage ? `Upload failed: ${detailedMessage}`
      : `Upload failed: ${xhr.statusText || "Unknown error"}`] *)
Definition failure_message (resp : Response) : string :=
  match detailed_message (body resp) with
  | Some d => "Upload failed: " ++ d
  | None =>
      "Upload failed: "
      ++ (if String.eqb (statusText resp) "" then "Unknown error" else statusText resp)
  end.

(** [xhr.onload] of the request [x] opened with [kind] and [preview].  On
    status 200 an unparsable (or [null]) body makes [JSON.parse] (or the
    read of [data.secure_url]) throw before any update, so the handler
    changes nothing. *)
Definition xhr_onload (x : nat) (kind : Kind) (preview : nat) (resp : Response)
  (w : World) : World :=
  let w := finish x w in
  if status resp =? 200 then
    match body resp with
    | None => w
    | Some data =>
        let w := match kind with
                 | Image => upd (set_videoUrl None) (upd (set_imageUrl (secure_url data)) w)
                 | Video => upd (set_imageUrl None) (upd (set_videoUrl (secure_url data)) w)
                 end in
        let w := revokeObjectURL preview w in
        let w := if decide (previewUrlRef (comp w) = Some preview)
                 then upd (set_previewUrlRef None) w else w in
        let w := upd (set_error None) (upd (set_previewKind None)
                   (upd (set_previewUrl None) w)) in
        upd (set_uploading false) w
    end
  else upd (set_uploading false) (handleUploadError (failure_message resp) w).

(** [xhr.onerror] *)
Definition xhr_onerror (x : nat) (w : World) : World :=
  handleUploadError "Network error during upload" (finish x w).

(** [handleSend()], calling the [onSend] prop, which is [ChatBox]'s
    [sendMessage]; the file input reset and the focus are DOM only. *)
Definition handleSend (cs : ChatBox.ChatState) (w : World)
  : ChatBox.ChatState * World :=
  let c := comp w in
  if negb (String.eqb (trim (message c)) "") || truthy (imageUrl c)
     || truthy (videoUrl c) then
    let cs := ChatBox.sendMessage (trim (message c)) (or_undefined (imageUrl c))
                (or_undefined (videoUrl c)) cs in
    let w := upd (set_error None) (upd (set_videoUrl None)
               (upd (set_imageUrl None) (upd (set_message "") w))) in
    let w := release_preview w in
    (cs, upd (set_previewKind None) (upd (set_previewUrl None) w))
  else (cs, w).

(** The [UploadJob] status the composer's state displays: the spinner
    while [uploading], the error banner, the uploaded attachment, or
    nothing. *)
Inductive UploadStatus := Idle | Uploading | Completed | Failed.

Definition upload_status (c : Composer) : UploadStatus :=
  if uploading c then Uploading
  else match error c with
       | Some _ => Failed
       | None => if truthy (imageUrl c) || truthy (videoUrl c)
                 then Completed else Idle
       end.

Definition init_composer : Composer :=
  mkComposer "" None None None None false 0 None None None.

Definition init_world (configPresent : bool) : World :=
  mkWorld init_composer [] [] 0 [] configPresent.

(** A [DataTransferItem] of a paste: its [type] and [getAsFile()]. *)
Record ClipItem := mkClipItem { itype : string; asFile : option File }.

(** [handlePaste(e)]: the first item whose type starts with ["image/"] and
    that yields a file goes to [handleFile], and the loop breaks. *)
Fixpoint handlePaste (items : list ClipItem) (w : World) : World :=
  match items with
  | [] => w
  | it :: rest =>
      if String.prefix "image/" (itype it) then
        match asFile it with
        | Some f => handleFile f w
        | None => handlePaste rest w
        end
      else handlePaste rest w
  end.

(** The [clear] method exposed through [useImperativeHandle]:
    [setMessage(""); resetTextareaHeight(); cancelUpload();]. *)
Definition clear (w : World) : World :=
  cancelUpload (upd (set_message "") w).

(** The cleanup of the mount effect: abort the request in [xhrRef] and
    revoke the preview URL in [previewUrlRef]. *)
Definition unmount (w : World) : World :=
  let w := match xhrRef (comp w) with
           | Some x => upd (set_xhrRef None) (xhr_abort x w)
           | None => w
           end in
  release_preview w.

(** What can happen to a mounted composer: the file input's [onChange]
    ([if (file) handleFile(file)]), a drop, a paste, the remove button
    ([cancelUpload]), [clear], a send, and the [onload] / [onerror] of a
    request still in flight. *)
Inductive Action :=
| Select (f : File)
| Drop (files : list File)
| Paste (items : list ClipItem)
| Cancel
| Clear
| Send
| XhrLoad (x : nat) (resp : Response)
| XhrError (x : nat).

Definition find_inflight (x : nat) (w : World) : option (nat * Kind * nat) :=
  List.find (fun '(y, _, _) => Nat.eqb x y) (inflight w).

Definition act (cs : ChatBox.ChatState) (w : World) (a : Action) : World :=
  match a with
  | Select f => handleFile f w
  | Drop files => handleDrop files w
  | Paste items => handlePaste items w
  | Cancel => cancelUpload w
  | Clear => clear w
  | Send => snd (handleSend cs w)
  | XhrLoad x resp =>
      match find_inflight x w with
      | Some (_, k, p) => xhr_onload x k p resp w
      | None => w
      end
  | XhrError x =>
      match find_inflight x w with
      | Some _ => xhr_onerror x w
      | None => w
      end
  end.

Definition run_actions (cs : ChatBox.ChatState) (w : World) (acts : list Action)
  : World :=
  fold_left (act cs) acts w.

End MessageInput.

(** ** Facts about the room session ([ChatBox]) *)
Module ChatBoxFacts.
Import ChatBox.

Lemma messages_step (s : ChatState) (e : Event) :
  messages (step s e) = messages (handle e s).
Proof. unfold step. destruct (rerenders e s); reflexivity. Qed.

Lemma typingUsers_step (s : ChatState) (e : Event) :
  typingUsers (step s e) = typingUsers (handle e s).
Proof. unfold step. destruct (rerenders e s); reflexivity. Qed.

Lemma messages_handleTyping (now : Z) (s : ChatState) :
  messages (handleTyping now s) = messages s.
Proof. unfold handleTyping. case_match; reflexivity. Qed.

Lemma typingUsers_handleTyping (now : Z) (s : ChatState) :
  typingUsers (handleTyping now s) = typingUsers s.
Proof. unfold handleTyping. case_match; reflexivity. Qed.

Lemma messages_on_receive (m : Message) (s : ChatState) :
  messages (on_receive_message m s) = messages s ++ [with_reactions (Some ∅) m].
Proof. unfold on_receive_message. case_match; reflexivity. Qed.

Lemma typingUsers_on_receive (m : Message) (s : ChatState) :
  typingUsers (on_receive_message m s) = typingUsers s.
Proof. unfold on_receive_message. case_match; reflexivity. Qed.

Lemma messages_run_receive (s : ChatState) (ms : list Message) :
  messages (run s (map ReceiveMessage ms))
  = messages s ++ map (with_reactions (Some ∅)) ms.
Proof.
  revert s. induction ms as [|m ms IH]; intros s; simpl.
  - by rewrite app_nil_r.
  - unfold run in *. rewrite IH, messages_step. simpl.
    rewrite messages_on_receive, <- app_assoc. reflexivity.
Qed.

Lemma id_bump (mid r : string) (m : Message) : id (bump mid r m) = id m.
Proof. unfold bump. case_match; reflexivity. Qed.



Lemma reaction_count_empty (m : Message) (r : string) :
  reaction_count (with_reactions (Some ∅) m) r = RNum 0.
Proof. unfold reaction_count. simpl. by rewrite lookup_empty. Qed.





Lemma typing_step_other (s : ChatState) (e : Event) :
  (forall l, e <> TypingIn l) -> typingUsers (step s e) = typingUsers s.
Proof.
  intros Hne. rewrite typingUsers_step.
  destruct e as [| | us | l | msgs | m0 | mid r | now]; simpl; try reflexivity.
  - exfalso. exact (Hne l eq_refl).
  - apply typingUsers_on_receive.
  - apply typingUsers_handleTyping.
Qed.

(** Messages used in the concrete runs below. *)
Definition msg (i s t : string) : Message := mkMessage i s t "" None None None None.

Definition msg_with (i : string) (r : gmap string RVal) : Message :=
  mkMessage i "alice" "hi" "" (Some r) None None None.

(** Claim C1 (counterexample): after a replay of [[m1; m2]] and
    [receive-message(m3)] the log is not [[m1; m2; m3]] when [m3] carries
    reaction counts, since the appended copy has them reset to [{}]. *)
Lemma C1_counterexample :
  let m3 := msg_with "3" {[ "x" := RNum 1 ]} in
  messages (run (init "alpha" "bob")
              [RecentMessages [msg "1" "alice" "a"; msg "2" "alice" "b"];
               ReceiveMessage m3])
  <> [msg "1" "alice" "a"; msg "2" "alice" "b"; m3].
Proof.
  simpl. intros H.
  apply (f_equal (fun l => reaction_count (nth 2 l (msg "" "" "")) "x")) in H.
  vm_compute in H. discriminate.
Qed.

(** Claim C1 (amended): from any prior state, a [recent-messages] replay
    sets the log to exactly its array, discarding what was held, and each
    later [receive-message] appends its message, with reactions reset to
    [{}], at the end; so replay [[m1; m2]] then [receive-message(m3)] gives
    [[m1; m2; m3']] with [m3'] being [m3] with empty reactions, and a
    further replay of [[m1]] gives [[m1]]. *)
Theorem C1_replay_replaces_then_appends :
  (forall (s : ChatState) (msgs ms : list Message),
     messages (run s (RecentMessages msgs :: map ReceiveMessage ms))
     = msgs ++ map (with_reactions (Some ∅)) ms) /\
  (forall (s : ChatState) (m1 m2 m3 : Message),
     messages (run s [RecentMessages [m1; m2]; ReceiveMessage m3])
     = [m1; m2; with_reactions (Some ∅) m3] /\
     messages (run s [RecentMessages [m1; m2]; ReceiveMessage m3;
                      RecentMessages [m1]]) = [m1]).
Proof.
  split.
  - intros s msgs ms. unfold run. simpl.
    change (messages (run (step s (RecentMessages msgs)) (map ReceiveMessage ms))
            = msgs ++ map (with_reactions (Some ∅)) ms).
    rewrite messages_run_receive, messages_step. reflexivity.
  - intros s m1 m2 m3. split.
    + unfold run. cbn [fold_left]. rewrite messages_step. cbn [handle].
      rewrite messages_on_receive, messages_step. reflexivity.
    + unfold run. cbn [fold_left]. rewrite messages_step. reflexivity.
Qed.

(** Claim C2: a [message-reaction] event whose [messageId] matches no
    message in the log leaves the log unchanged (the handler is total, it
    cannot fail); the state only goes through a re-render. *)
Theorem C2_orphan_reaction_dropped (s : ChatState) (mid r : string) :
  (forall m, In m (messages s) -> id m <> mid) ->
  messages (step s (MessageReaction mid r)) = messages s /\
  step s (MessageReaction mid r) = render s.
Proof.
  intros Hnone.
  assert (Hmap : map (bump mid r) (messages s) = messages s).
  { rewrite <- (map_id (messages s)) at 2. apply map_ext_in.
    intros m Hin. unfold bump. destruct (String.eqb_spec (id m) mid) as [E|_].
    - exfalso. exact (Hnone m Hin E).
    - reflexivity. }
  unfold step, render. simpl. unfold on_message_reaction. rewrite Hmap.
  split; [reflexivity|]. destruct s; reflexivity.
Qed.

Lemma C2_orphan_reaction_dropped_witness :
  let s := run (init "alpha" "bob") [RecentMessages [msg "1" "alice" "hi"]] in
  (forall m, In m (messages s) -> id m <> "7"%string) /\
  messages (step s (MessageReaction "7" "x")) = messages s /\
  step s (MessageReaction "7" "x") = render s.
Proof.
  intros s.
  assert (H : forall m, In m (messages s) -> id m <> "7"%string).
  { simpl. intros m [<-|[]]. simpl. discriminate. }
  split; [exact H|]. exact (C2_orphan_reaction_dropped s "7" "x" H).
Defined.




(** Within one render the [handleTyping] closure does rate-limit: a call
    at most 1000 ms after its last emission emits nothing. *)
Lemma handleTyping_within_window (s : ChatState) (now : Z) :
  now - lastEmit s <= 1000 -> step s (Keystroke now) = s.
Proof.
  intros H. unfold step. simpl. unfold handleTyping.
  replace (now - lastEmit s >? 1000) with false; [reflexivity|].
  symmetry. rewrite Z.gtb_ltb. apply Z.ltb_ge. lia.
Qed.

(** Claim C8 (code bug): two keystrokes 1 ms apart emit one typing signal,
    but when an incoming event (here a message from another user) re-renders
    [ChatBox] between them, the new [handleTyping] closure starts again from
    [lastEmit = 0] and the second keystroke emits a second signal 1 ms after
    the first. *)
Theorem C8_rerender_resets_typing_limiter :
  outbox (run (init "alpha" "bob") [Keystroke 5000; Keystroke 5001])
  = [TypingOut "alpha"] /\
  outbox (run (init "alpha" "bob")
            [Keystroke 5000; ReceiveMessage (msg "9" "alice" "yo");
             Keystroke 5001])
  = [TypingOut "alpha"; TypingOut "alpha"].
Proof. split; reflexivity. Qed.

(** Claim C9 (counterexample): no timer removes a typing user: after the
    announcement of "alice", two minutes of other events (keystrokes at
    60 s and 120 s, a message) leave her in [typingUsers]. *)
Lemma C9_counterexample :
  typingUsers (run (init "alpha" "bob")
                 [TypingIn ["alice"]; Keystroke 60000;
                  ReceiveMessage (msg "9" "carol" "yo"); Keystroke 120000])
  = ["alice"%string].
Proof. reflexivity. Qed.

(** Claim C9 (amended): each incoming [typing] event replaces
    [typingUsers] wholesale with the received list minus the local user;
    every other event leaves it as it is, so a user leaves [typingUsers]
    only when a later [typing] list omits them (there is no client-side
    expiry timer). *)
Theorem C9_typing_list_replaced_by_server :
  (forall (s : ChatState) (l : list string),
     typingUsers (step s (TypingIn l))
     = List.filter (fun u => negb (String.eqb u (userName s))) l) /\
  (forall (s : ChatState) (es : list Event),
     Forall (fun e => forall l, e <> TypingIn l) es ->
     typingUsers (run s es) = typingUsers s).
Proof.
  split.
  - intros s l. rewrite typingUsers_step. reflexivity.
  - intros s es Hes. revert s. induction Hes as [|e es He Hes IH]; intros s.
    + reflexivity.
    + unfold run in *. simpl. rewrite IH. apply typing_step_other. exact He.
Qed.

Lemma C9_typing_list_replaced_by_server_witness :
  let s := run (init "alpha" "bob") [TypingIn ["alice"]] in
  Forall (fun e => forall l, e <> TypingIn l) [Keystroke 60000; Disconnect] /\
  typingUsers (run s [Keystroke 60000; Disconnect]) = typingUsers s.
Proof.
  intros s.
  assert (H : Forall (fun e => forall l, e <> TypingIn l) [Keystroke 60000; Disconnect]).
  { repeat constructor; intros l; discriminate. }
  split; [exact H|]. exact (proj2 C9_typing_list_replaced_by_server s _ H).
Defined.

(** Claim C10: [receive-message] appends the message with its reactions
    replaced by the empty map, whatever the payload carried (every count
    reads 0), while a [recent-messages] replay installs the payload's
    messages unmodified. *)
Theorem C10_receive_resets_reactions_replay_keeps_them :
  (forall (s : ChatState) (m : Message),
     messages (step s (ReceiveMessage m))
     = messages s ++ [with_reactions (Some ∅) m] /\
     reactions (with_reactions (Some ∅) m) = Some ∅ /\
     forall r, reaction_count (with_reactions (Some ∅) m) r = RNum 0) /\
  (forall (s : ChatState) (msgs : list Message),
     messages (step s (RecentMessages msgs)) = msgs).
Proof.
  split.
  - intros s m. rewrite messages_step. simpl. rewrite messages_on_receive.
    split; [reflexivity|]. split; [reflexivity|]. apply reaction_count_empty.
  - intros s msgs. rewrite messages_step. reflexivity.
Qed.

End ChatBoxFacts.

(** ** Facts about the composer and its upload ([MessageInput]) *)
Module ComposerFacts.
Import MessageInput.

(** Claim C4: when the trimmed text is empty and neither [imageUrl] nor
    [videoUrl] is set (truthy), [handleSend] does nothing: no
    [send-message] is emitted and neither component's state changes.
    Otherwise, with a socket, exactly one [send-message] carrying the
    trimmed text and the attachment is emitted. *)
Theorem C4_empty_send_rejected :
  (forall (cs : ChatBox.ChatState) (w : World),
     trim (message (comp w)) = ""%string ->
     truthy (imageUrl (comp w)) = false ->
     truthy (videoUrl (comp w)) = false ->
     handleSend cs w = (cs, w)) /\
  (forall (cs : ChatBox.ChatState) (w : World),
     (trim (message (comp w)) <> ""%string \/ truthy (imageUrl (comp w)) = true
      \/ truthy (videoUrl (comp w)) = true) ->
     ChatBox.socket cs = true ->
     exists reply,
       ChatBox.outbox (fst (handleSend cs w))
       = ChatBox.outbox cs ++
         [ChatBox.SendMessage (ChatBox.room cs) (trim (message (comp w))) reply
            (or_undefined (imageUrl (comp w))) (or_undefined (videoUrl (comp w)))]).
Proof.
  split.
  - intros cs w Ht Hi Hv. unfold handleSend. rewrite Ht, Hi, Hv. reflexivity.
  - intros cs w Hg Hs. unfold handleSend.
    replace (negb (String.eqb (trim (message (comp w))) "") || truthy (imageUrl (comp w))
             || truthy (videoUrl (comp w))) with true.
    + simpl. unfold ChatBox.sendMessage. rewrite Hs. eexists. reflexivity.
    + destruct Hg as [Ht|[Hi|Hv]].
      * destruct (String.eqb_spec (trim (message (comp w))) ""); [contradiction|].
        reflexivity.
      * rewrite Hi. by rewrite orb_true_r, orb_true_l.
      * rewrite Hv. by rewrite orb_true_r.
Qed.

(** U+00A0 NO-BREAK SPACE, UTF-8 encoded. *)
Definition nbsp : string :=
  String (ascii_of_nat 194) (String (ascii_of_nat 160) EmptyString).

Lemma C4_empty_send_rejected_witness :
  let w := upd (set_message (String.append " " (String.append nbsp " ")))
             (init_world true) in
  let cs := ChatBox.init "alpha" "bob" in
  handleSend cs w = (cs, w) /\
  exists reply,
    ChatBox.outbox (fst (handleSend cs
      (upd (set_message (String.append nbsp (String.append " hi" nbsp)))
         (init_world true))))
    = [ChatBox.SendMessage "alpha" "hi" reply None None].
Proof.
  intros w cs. split.
  - apply (proj1 C4_empty_send_rejected); vm_compute; reflexivity.
  - apply (proj2 C4_empty_send_rejected); [|reflexivity].
    left. vm_compute. discriminate.
Defined.




Lemma is_inflight_finish (x : nat) (w : World) : is_inflight x (finish x w) = false.
Proof.
  unfold is_inflight, finish. simpl. induction (inflight w) as [|[[y k] u] l IH]; simpl.
  - reflexivity.
  - destruct (Nat.eqb x y) eqn:E; simpl; [exact IH|]. rewrite E. exact IH.
Qed.

Lemma cancel_comp (w : World) :
  comp (cancelUpload w)
  = mkComposer (message (comp w)) None None None None false
      (uploadProgress (comp w)) None None None.
Proof.
  destruct w as [[msg iu vu pu pk up pr er pref xref] infl lv fr eff cfg].
  unfold cancelUpload. cbn -[is_inflight].
  destruct xref as [x|]; cbn -[is_inflight].
  - unfold xhr_abort. destruct (is_inflight _ _); destruct pref; reflexivity.
  - destruct pref; reflexivity.
Qed.

Lemma cancel_effects (w : World) :
  effects (cancelUpload w)
  = effects w ++ (match xhrRef (comp w) with Some x => [XhrAbort x] | None => [] end)
              ++ (match previewUrlRef (comp w) with
                  | Some u => [RevokeObjectURL u] | None => [] end).
Proof.
  destruct w as [[msg iu vu pu pk up pr er pref xref] infl lv fr eff cfg].
  unfold cancelUpload. cbn -[is_inflight].
  destruct xref as [x|]; cbn -[is_inflight].
  - unfold xhr_abort. destruct (is_inflight _ _); destruct pref;
      cbn -[is_inflight]; rewrite <- ?app_assoc; reflexivity.
  - destruct pref; cbn; rewrite ?app_nil_r; reflexivity.
Qed.

Lemma cancel_inflight (w : World) :
  inflight (cancelUpload w)
  = match xhrRef (comp w) with
    | Some x => if is_inflight x w then inflight (finish x w) else inflight w
    | None => inflight w
    end.
Proof.
  destruct w as [[msg iu vu pu pk up pr er pref xref] infl lv fr eff cfg].
  unfold cancelUpload. cbn -[is_inflight finish].
  destruct xref as [x|]; cbn -[is_inflight finish].
  - unfold xhr_abort. destruct (is_inflight _ _); destruct pref; reflexivity.
  - destruct pref; reflexivity.
Qed.

Lemma cancel_cancel (w : World) : cancelUpload (cancelUpload w) = cancelUpload w.
Proof.
  pose proof (cancel_comp w) as H.
  remember (cancelUpload w) as w' eqn:Hw. clear Hw.
  destruct w' as [c' infl lv fr eff cfg]. simpl in H. subst c'. reflexivity.
Qed.

(** Claim C6 (counterexample): with nothing in flight but a completed
    attachment, [cancelUpload] is not a no-op: it discards [imageUrl]. *)
Lemma C6_counterexample :
  let w := mkWorld (set_imageUrl (Some "https://res.example/a.png"%string) init_composer)
             [] [] 0 [] true in
  xhrRef (comp w) = None /\ inflight w = [] /\ cancelUpload w <> w.
Proof.
  simpl. split; [reflexivity|]. split; [reflexivity|].
  intros H. apply (f_equal (fun w => imageUrl (comp w))) in H. discriminate.
Qed.

(** Claim C6 (amended): [cancelUpload] can run in every state.  Its only
    effects are aborting the request held in [xhrRef], if any, and then one
    revocation of the preview URL held in [previewUrlRef], if any (the
    synchronous [onabort] handler and [cancelUpload] never both revoke it);
    it leaves the held request no longer in flight and the composer idle,
    which also drops a completed attachment and a shown error.  A second
    [cancelUpload] changes nothing and has no effect. *)
Theorem C6_cancel_resets_and_is_idempotent (w : World) :
  effects (cancelUpload w)
  = effects w ++ (match xhrRef (comp w) with Some x => [XhrAbort x] | None => [] end)
              ++ (match previewUrlRef (comp w) with
                  | Some u => [RevokeObjectURL u] | None => [] end) /\
  upload_status (comp (cancelUpload w)) = Idle /\
  xhrRef (comp (cancelUpload w)) = None /\
  previewUrlRef (comp (cancelUpload w)) = None /\
  (match xhrRef (comp w) with
   | Some x => is_inflight x (cancelUpload w) = false | None => True end) /\
  cancelUpload (cancelUpload w) = cancelUpload w.
Proof.
  split; [apply cancel_effects|].
  split; [unfold upload_status; rewrite cancel_comp; reflexivity|].
  split; [rewrite cancel_comp; reflexivity|].
  split; [rewrite cancel_comp; reflexivity|].
  split; [|apply cancel_cancel].
  destruct (xhrRef (comp w)) as [x|] eqn:Hx; [|exact I].
  unfold is_inflight at 1. rewrite cancel_inflight, Hx.
  destruct (is_inflight x w) eqn:Hin; [apply is_inflight_finish | exact Hin].
Qed.

(** Claim C7 (code bug): a second valid file dropped while the first upload
    is in flight gets its own request, but [handleFile] only revokes the old
    preview: it never aborts the request in [xhrRef] and then overwrites
    [xhrRef], so both requests are in flight, and a later [cancelUpload]
    aborts only the second one. *)
Theorem C7_second_drop_leaves_two_uploads :
  let w1 := handleFile (mkFile "image/png" 1000) (init_world true) in
  let w2 := handleDrop [mkFile "image/jpeg" 2000] w1 in
  upload_status (comp w1) = Uploading /\
  inflight w1 = [(1%nat, Image, 0%nat)] /\
  inflight w2 = [(1%nat, Image, 0%nat); (3%nat, Image, 2%nat)] /\
  effects w2 = [CreateObjectURL 0; XhrSend 1 Image; RevokeObjectURL 0;
                CreateObjectURL 2; XhrSend 3 Image] /\
  is_inflight 1 (cancelUpload w2) = true.
Proof. vm_compute. repeat split. Qed.

End ComposerFacts.

(** ** Further properties of [ChatBox] *)
Module ChatBoxExtra.
Import ChatBox ChatBoxFacts.

Definition is_join (o : Outbound) : bool :=
  match o with JoinRoom _ _ => true | _ => false end.

Definition is_connect (e : Event) : bool :=
  match e with Connect => true | _ => false end.

Lemma step_fixed_fields (s : ChatState) (e : Event) :
  room (step s e) = room s /\ userName (step s e) = userName s /\
  isAtBottom (step s e) = isAtBottom s.
Proof.
  unfold step, render. destruct e; simpl;
    unfold on_receive_message, handleTyping;
    repeat case_match; simpl; auto.
Qed.

Lemma outbox_step (s : ChatState) (e : Event) :
  exists l, outbox (step s e) = outbox s ++ l /\
    length (List.filter is_join l) = (if is_connect e then 1 else 0)%nat /\
    forall o, In o l -> o = JoinRoom (room s) (userName s) \/ o = TypingOut (room s).
Proof.
  unfold step, render. destruct e; simpl;
    unfold on_receive_message, handleTyping; simpl;
    repeat case_match; simpl;
    first [ exists []; rewrite app_nil_r; split; [reflexivity | split; [reflexivity | intros o []]]
          | exists [JoinRoom (room s) (userName s)]; split; [reflexivity|];
            split; [reflexivity | intros o [<-|[]]; left; reflexivity]
          | exists [TypingOut (room s)]; split; [reflexivity|];
            split; [reflexivity | intros o [<-|[]]; right; reflexivity] ].
Qed.

(** X1: the typing indicator never lists the local user: from mount, over
    any run of events, [typingUsers] does not contain [userName]. *)
Theorem typingUsers_exclude_self (r me : string) (es : list Event) :
  ~ In me (typingUsers (run (init r me) es)).
Proof.
  assert (H : forall s, userName s = me -> ~ In me (typingUsers s) ->
              ~ In me (typingUsers (run s es))).
  { induction es as [|e es IH]; intros s Hu Hs; [exact Hs|].
    unfold run. simpl. apply IH.
    - rewrite (proj1 (proj2 (step_fixed_fields s e))). exact Hu.
    - destruct e; try (rewrite typing_step_other; [exact Hs | intros l; discriminate]).
      rewrite typingUsers_step. simpl. rewrite Hu.
      intros Hin. apply filter_In in Hin as [_ Hneq].
      rewrite String.eqb_refl in Hneq. discriminate. }
  apply H; [reflexivity | intros []].
Qed.

(** X2: every [connect] (the first and each reconnection) emits exactly one
    [join-room] carrying the component's room and user name, and no other
    event emits one. *)
Theorem join_once_per_connect (r me : string) (es : list Event) :
  length (List.filter is_join (outbox (run (init r me) es)))
  = length (List.filter is_connect es) /\
  forall r' u', In (JoinRoom r' u') (outbox (run (init r me) es)) -> r' = r /\ u' = me.
Proof.
  assert (H : forall s, room s = r -> userName s = me ->
    length (List.filter is_join (outbox (run s es)))
    = (length (List.filter is_join (outbox s)) + length (List.filter is_connect es))%nat /\
    ((forall r' u', In (JoinRoom r' u') (outbox s) -> r' = r /\ u' = me) ->
     forall r' u', In (JoinRoom r' u') (outbox (run s es)) -> r' = r /\ u' = me)).
  { induction es as [|e es IH]; intros s Hr Hu.
    - simpl. split; [lia | auto].
    - unfold run. simpl.
      destruct (step_fixed_fields s e) as (Hr' & Hu' & _).
      destruct (IH (step s e)) as [IH1 IH2]; [congruence | congruence |].
      destruct (outbox_step s e) as (l & Hl & Hc & Hin).
      unfold run in IH1, IH2. rewrite IH1, Hl, List.filter_app, length_app, Hc.
      split; [destruct (is_connect e); simpl; lia|].
      intros Hold. apply IH2. rewrite Hl. intros r' u' Hx.
      apply in_app_or in Hx as [Hx|Hx]; [exact (Hold r' u' Hx)|].
      destruct (Hin _ Hx) as [E|E]; [|discriminate].
      injection E as -> ->. auto. }
  destruct (H (init r me) eq_refl eq_refl) as [H1 H2]. split.
  - exact H1.
  - apply H2. intros r' u' [].
Qed.

(** X3: the reply target is one-shot: after [handleReply(m)], a send with a
    socket emits [send-message] whose [replyTo] is [m]'s id and clears the
    target, so the next send carries [replyTo: null]; without a socket
    [sendMessage] changes nothing, keeping the target. *)
Theorem reply_target_one_shot (s : ChatState) (m : Message)
  (txt txt2 : string) (img vid img2 vid2 : option string) :
  id m <> ""%string ->
  (socket s = true ->
   let s1 := sendMessage txt img vid (handleReply m s) in
   outbox s1 = outbox s ++ [SendMessage (room s) txt (Some (id m)) img vid] /\
   replyingTo s1 = None /\
   outbox (sendMessage txt2 img2 vid2 s1)
   = outbox s1 ++ [SendMessage (room s) txt2 None img2 vid2]) /\
  (socket s = false -> sendMessage txt img vid (handleReply m s) = handleReply m s).
Proof.
  intros Hid. split.
  - intros Hs. unfold sendMessage, handleReply. simpl. rewrite Hs.
    destruct (String.eqb_spec (id m) "") as [E|_]; [contradiction|].
    simpl. rewrite Hs. auto.
  - intros Hs. unfold sendMessage. simpl. rewrite Hs. reflexivity.
Qed.

Lemma reply_target_one_shot_witness :
  let m := msg "42" "alice" "hello" in
  let s := init "alpha" "bob" in
  id m <> ""%string /\
  outbox (sendMessage "re" None None (handleReply m s))
  = [SendMessage "alpha" "re" (Some "42"%string) None None].
Proof.
  intros m s.
  assert (Hid : id m <> ""%string) by discriminate.
  split; [exact Hid|].
  exact (proj1 (proj1 (reply_target_one_shot s m "re" "" None None None None Hid) eq_refl)).
Defined.

Lemma find_app_some {A} (p : A -> bool) (l1 l2 : list A) (y : A) :
  List.find p l1 = Some y -> List.find p (l1 ++ l2) = Some y.
Proof.
  induction l1 as [|x l1 IH]; simpl; [discriminate|].
  destruct (p x); auto.
Qed.

Lemma find_in_some {A} (p : A -> bool) (l : list A) (x : A) :
  In x l -> p x = true -> exists y, List.find p l = Some y.
Proof.
  induction l as [|z l IH]; simpl; [intros []|].
  intros [->|Hin] Hp; [rewrite Hp; eauto|].
  destruct (p z); eauto.
Qed.

Lemma find_map_bump (mid r target : string) (l : list Message) :
  find_by_id target (map (bump mid r) l) = option_map (bump mid r) (find_by_id target l).
Proof.
  unfold find_by_id. induction l as [|x l IH]; simpl; [reflexivity|].
  rewrite id_bump. destruct (String.eqb (id x) target); [reflexivity | exact IH].
Qed.

Lemma text_sender_bump (mid r : string) (m : Message) :
  text (bump mid r m) = text m /\ sender (bump mid r m) = sender m.
Proof. unfold bump. case_match; auto. Qed.

(** X4: a reply's quoted text and sender are looked up in the current log:
    a target id matching no message shows ["Message"] and no sender, and
    while the target is in the log, every event other than a
    [recent-messages] replay (new messages, reactions, typing, presence,
    keystrokes) leaves the quote as it was. *)
Theorem reply_preview_lookup :
  (forall (msgs : list Message) (me target : string),
     (forall m, In m msgs -> id m <> target) ->
     reply_preview_text msgs target = "Message"%string /\
     reply_preview_sender msgs me target = None) /\
  (forall (s : ChatState) (e : Event) (me target : string),
     (forall msgs, e <> RecentMessages msgs) ->
     (exists m, In m (messages s) /\ id m = target) ->
     reply_preview_text (messages (step s e)) target
     = reply_preview_text (messages s) target /\
     reply_preview_sender (messages (step s e)) me target
     = reply_preview_sender (messages s) me target).
Proof.
  split.
  - intros msgs me target Hnone.
    assert (Hf : find_by_id target msgs = None).
    { unfold find_by_id. destruct (List.find _ msgs) as [y|] eqn:E; [|reflexivity].
      apply find_some in E as [Hin Hp]. apply String.eqb_eq in Hp.
      exfalso. exact (Hnone y Hin Hp). }
    unfold reply_preview_text, reply_preview_sender. rewrite Hf. auto.
  - intros s e me target Hne (m & Hin & Hid).
    destruct (find_in_some (fun m => String.eqb (id m) target) (messages s) m Hin)
      as [y Hy]; [apply String.eqb_eq; exact Hid|].
    fold (find_by_id target (messages s)) in Hy.
    rewrite messages_step.
    destruct e as [| | us | l | msgs | m0 | mid r | now]; simpl; try auto.
    + exfalso. exact (Hne msgs eq_refl).
    + rewrite messages_on_receive. unfold reply_preview_text, reply_preview_sender.
      unfold find_by_id in *. rewrite (find_app_some _ _ _ _ Hy), Hy. auto.
    + unfold reply_preview_text, reply_preview_sender.
      rewrite find_map_bump, Hy. simpl.
      destruct (text_sender_bump mid r y) as [-> ->]. auto.
    + rewrite messages_handleTyping. auto.
Qed.

Lemma reply_preview_lookup_witness :
  let s := run (init "alpha" "bob") [RecentMessages [msg "1" "alice" "hello"]] in
  reply_preview_text (messages s) "9" = "Message"%string /\
  reply_preview_text (messages (step s (MessageReaction "1" "x"))) "1"
  = reply_preview_text (messages s) "1".
Proof.
  intros s. split.
  - apply (proj1 reply_preview_lookup (messages s) "bob" "9").
    simpl. intros m [<-|[]]. discriminate.
  - apply (proj2 reply_preview_lookup s (MessageReaction "1" "x") "bob" "1").
    + intros msgs. discriminate.
    + exists (msg "1" "alice" "hello"). split; [left; reflexivity | reflexivity].
Defined.

(** X6: while the view stays at the bottom, no event raises the "new
    messages" indicator: [receive-message] sets it only when [isAtBottom]
    is false. *)
Theorem indicator_stays_off_at_bottom (s : ChatState) (es : list Event) :
  isAtBottom s = true -> newMessagesIndicator s = false ->
  newMessagesIndicator (run s es) = false.
Proof.
  revert s. induction es as [|e es IH]; intros s Hb Hn; [exact Hn|].
  unfold run. simpl. apply IH.
  - rewrite (proj2 (proj2 (step_fixed_fields s e))). exact Hb.
  - unfold step, render. destruct e; simpl;
      unfold on_receive_message, handleTyping; simpl; rewrite ?Hb; simpl;
      repeat case_match; simpl; auto.
Qed.

Lemma indicator_stays_off_at_bottom_witness :
  isAtBottom (init "alpha" "bob") = true /\
  newMessagesIndicator (init "alpha" "bob") = false /\
  newMessagesIndicator (run (init "alpha" "bob")
    [ReceiveMessage (msg "1" "alice" "hi"); Connect]) = false.
Proof.
  split; [reflexivity|]. split; [reflexivity|].
  apply indicator_stays_off_at_bottom; reflexivity.
Defined.

End ChatBoxExtra.

(** ** Further properties of [MessageInput] *)
Module ComposerExtra.
Import MessageInput ComposerFacts.

(** The object URLs alive are exactly the one held in [previewUrlRef]. *)
Definition preview_inv (w : World) : Prop :=
  live w = from_option (fun u => [u]) [] (previewUrlRef (comp w)).

(** The revocations [release_preview] performs on a state. *)
Definition revoke_held (w : World) : list Effect :=
  from_option (fun u => [RevokeObjectURL u]) [] (previewUrlRef (comp w)).

Lemma preview_inv_upd (f : Composer -> Composer) (w : World) :
  previewUrlRef (f (comp w)) = previewUrlRef (comp w) ->
  preview_inv w -> preview_inv (upd f w).
Proof. unfold preview_inv. simpl. intros -> H. exact H. Qed.

Lemma preview_inv_log (e : Effect) (w : World) :
  preview_inv w -> preview_inv (log e w).
Proof. unfold preview_inv. simpl. auto. Qed.

Lemma release_preview_eq (w : World) :
  preview_inv w ->
  release_preview w
  = mkWorld (set_previewUrlRef None (comp w)) (inflight w) [] (fresh w)
      (effects w ++ revoke_held w) (configPresent w).
Proof.
  destruct w as [[? ? ? ? ? ? ? ? ref ?] infl lv fr eff cfg].
  unfold preview_inv, release_preview, revoke_held, revokeObjectURL, upd, log.
  simpl. intros ->.
  destruct ref as [u|]; simpl.
  - destruct (Nat.eq_dec u u); [reflexivity | contradiction].
  - rewrite app_nil_r. reflexivity.
Qed.

Lemma handleUploadError_eq (m : string) (w : World) :
  preview_inv w ->
  handleUploadError m w
  = mkWorld (mkComposer (message (comp w)) (imageUrl (comp w)) (videoUrl (comp w))
               None None false (uploadProgress (comp w)) (Some m) None (xhrRef (comp w)))
      (inflight w) [] (fresh w) (effects w ++ revoke_held w) (configPresent w).
Proof.
  intros H. unfold handleUploadError. rewrite release_preview_eq.
  - destruct w as [[] ? ? ? ? ?]. reflexivity.
  - destruct w as [[] ? ? ? ? ?]. exact H.
Qed.

Lemma preview_inv_handleUploadError (m : string) (w : World) :
  preview_inv w -> preview_inv (handleUploadError m w).
Proof. intros H. rewrite (handleUploadError_eq m w H). reflexivity. Qed.

Lemma preview_inv_release (w : World) :
  preview_inv w -> preview_inv (release_preview w).
Proof.
  intros H. rewrite (release_preview_eq w H). destruct w as [[] ? ? ? ? ?]. reflexivity.
Qed.

Lemma preview_inv_xhr_abort (x : nat) (w : World) :
  preview_inv w -> preview_inv (xhr_abort x w).
Proof.
  intros H. unfold xhr_abort. case_match.
  - apply preview_inv_handleUploadError. destruct w as [[] ? ? ? ? ?]. exact H.
  - apply preview_inv_log, H.
Qed.

Lemma preview_inv_cancel (w : World) : preview_inv w -> preview_inv (cancelUpload w).
Proof.
  intros H. unfold cancelUpload.
  repeat (apply preview_inv_upd; [reflexivity|]).
  apply preview_inv_release.
  destruct (xhrRef (comp w)); [|exact H].
  apply preview_inv_upd; [reflexivity|]. apply preview_inv_xhr_abort, H.
Qed.

Lemma preview_inv_handleFile (f : File) (w : World) :
  preview_inv w -> preview_inv (handleFile f w).
Proof.
  intros H. unfold handleFile.
  destruct (validateFile f (kind_of f)).
  - apply preview_inv_upd; [reflexivity|]. apply preview_inv_upd; auto.
  - rewrite release_preview_eq by (destruct w as [[] ? ? ? ? ?]; exact H).
    unfold startMediaUpload, createObjectURL. destruct w as [[] ? ? ? ? cfg].
    destruct cfg; simpl.
    + unfold preview_inv. reflexivity.
    + apply preview_inv_handleUploadError. unfold preview_inv. reflexivity.
Qed.

Lemma preview_inv_finish (x : nat) (w : World) :
  preview_inv w -> preview_inv (finish x w).
Proof. unfold preview_inv. simpl. auto. Qed.

Lemma preview_inv_handleDrop (files : list File) (w : World) :
  preview_inv w -> preview_inv (handleDrop files w).
Proof. destruct files; simpl; auto using preview_inv_handleFile. Qed.

Lemma preview_inv_handlePaste (items : list ClipItem) (w : World) :
  preview_inv w -> preview_inv (handlePaste items w).
Proof.
  induction items as [|it rest IH]; simpl; auto.
  intros H. destruct (String.prefix _ _); auto.
  destruct (asFile it); auto using preview_inv_handleFile.
Qed.

Lemma preview_inv_clear (w : World) : preview_inv w -> preview_inv (clear w).
Proof.
  intros H. unfold clear. apply preview_inv_cancel.
  apply preview_inv_upd; [reflexivity | exact H].
Qed.

Lemma preview_inv_handleSend (cs : ChatBox.ChatState) (w : World) :
  preview_inv w -> preview_inv (snd (handleSend cs w)).
Proof.
  intros H. unfold handleSend. case_match; simpl; [|exact H].
  repeat (apply preview_inv_upd; [reflexivity|]).
  apply preview_inv_release.
  repeat (apply preview_inv_upd; [reflexivity|]). exact H.
Qed.

(** Revoking the preview of a finished upload, and dropping the ref when
    it still names that preview. *)
Lemma preview_inv_revoke_preview (p : nat) (w : World) :
  preview_inv w ->
  preview_inv (let w := revokeObjectURL p w in
               if decide (previewUrlRef (comp w) = Some p)
               then upd (set_previewUrlRef None) w else w).
Proof.
  destruct w as [[? ? ? ? ? ? ? ? ref ?] infl lv fr eff cfg].
  unfold preview_inv, revokeObjectURL, upd, log. simpl. intros ->.
  destruct ref as [u|]; simpl.
  - destruct (Nat.eq_dec p u) as [<-|Hne].
    + rewrite decide_True by reflexivity. simpl.
      destruct (Nat.eq_dec p p); [reflexivity | contradiction].
    + rewrite decide_False by congruence. simpl.
      destruct (Nat.eq_dec p u); [contradiction | reflexivity].
  - reflexivity.
Qed.

Lemma preview_inv_onload (x : nat) (k : Kind) (p : nat) (resp : Response)
  (w : World) : preview_inv w -> preview_inv (xhr_onload x k p resp w).
Proof.
  intros H. apply (preview_inv_finish x) in H. unfold xhr_onload.
  destruct (status resp =? 200).
  - destruct (body resp) as [data|]; [|exact H].
    repeat (apply preview_inv_upd; [reflexivity|]).
    apply preview_inv_revoke_preview.
    destruct k; repeat (apply preview_inv_upd; [reflexivity|]); exact H.
  - apply preview_inv_upd; [reflexivity|]. apply preview_inv_handleUploadError, H.
Qed.

Lemma preview_inv_onerror (x : nat) (w : World) :
  preview_inv w -> preview_inv (xhr_onerror x w).
Proof.
  intros H. apply preview_inv_handleUploadError, preview_inv_finish, H.
Qed.

Lemma preview_inv_act (cs : ChatBox.ChatState) (w : World) (a : Action) :
  preview_inv w -> preview_inv (act cs w a).
Proof.
  intros H. destruct a; simpl.
  - apply preview_inv_handleFile, H.
  - apply preview_inv_handleDrop, H.
  - apply preview_inv_handlePaste, H.
  - apply preview_inv_cancel, H.
  - apply preview_inv_clear, H.
  - apply preview_inv_handleSend, H.
  - destruct (find_inflight x w) as [[[? ?] ?]|]; auto using preview_inv_onload.
  - destruct (find_inflight x w); auto using preview_inv_onerror.
Qed.

Lemma preview_inv_run (cs : ChatBox.ChatState) (w : World) (acts : list Action) :
  preview_inv w -> preview_inv (run_actions cs w acts).
Proof.
  unfold run_actions. revert w.
  induction acts as [|a acts IH]; simpl; auto using preview_inv_act.
Qed.

(** X7: whatever the user and the network do, the only object URL not yet
    revoked is the one [previewUrlRef] holds: at most one preview is ever
    alive, and none is alive once the ref is cleared. *)
Theorem object_urls_only_current_preview (cfg : bool) (cs : ChatBox.ChatState)
  (acts : list Action) :
  let w := run_actions cs (init_world cfg) acts in
  live w = from_option (fun u => [u]) [] (previewUrlRef (comp w))
  /\ (length (live w) <= 1)%nat.
Proof.
  intros w. assert (H : preview_inv w) by (apply preview_inv_run; reflexivity).
  split; [exact H|]. rewrite H. destruct (previewUrlRef (comp w)); simpl; lia.
Qed.

Lemma inflight_release (w : World) : inflight (release_preview w) = inflight w.
Proof. unfold release_preview. destruct (previewUrlRef (comp w)); reflexivity. Qed.

Lemma inflight_handleUploadError (m : string) (w : World) :
  inflight (handleUploadError m w) = inflight w.
Proof. unfold handleUploadError. simpl. rewrite inflight_release. reflexivity. Qed.

Lemma inflight_onload (x : nat) (k : Kind) (p : nat) (resp : Response)
  (w : World) : inflight (xhr_onload x k p resp w) = inflight (finish x w).
Proof.
  unfold xhr_onload. destruct (status resp =? 200).
  - destruct (body resp); [|reflexivity]. destruct k; simpl; case_decide; reflexivity.
  - simpl. apply inflight_handleUploadError.
Qed.

Lemma find_inflight_of_is_inflight (x : nat) (w : World) :
  is_inflight x w = true -> exists k p, find_inflight x w = Some (x, k, p).
Proof.
  unfold is_inflight, find_inflight. induction (inflight w) as [|[[y k] p] l IH];
    simpl; [discriminate|].
  destruct (Nat.eqb x y) eqn:E; auto.
  intros _. apply Nat.eqb_eq in E. subst. eauto.
Qed.

(** The state an upload that failed leaves: the error banner with [m], no
    preview held or alive, and the request [x] finished. *)
Definition failed_cleanly (m : string) (x : nat) (w : World) : Prop :=
  upload_status (comp w) = Failed /\ error (comp w) = Some m
  /\ previewUrl (comp w) = None /\ previewUrlRef (comp w) = None
  /\ live w = [] /\ is_inflight x w = false.

Lemma failed_cleanly_handleUploadError (m : string) (x : nat) (w : World) :
  preview_inv w -> is_inflight x w = false ->
  failed_cleanly m x (handleUploadError m w).
Proof.
  intros H Hx. unfold failed_cleanly. rewrite (handleUploadError_eq m w H).
  unfold is_inflight in *. simpl. repeat split; auto.
Qed.

(** X8: unmounting the composer in any state it can reach aborts the request
    [xhrRef] names, so that it is no longer in flight, and revokes every
    object URL still alive; both refs end empty. *)
Theorem unmount_releases_resources (cfg : bool) (cs : ChatBox.ChatState)
  (acts : list Action) :
  let w := run_actions cs (init_world cfg) acts in
  let w' := unmount w in
  live w' = [] /\ previewUrlRef (comp w') = None /\ xhrRef (comp w') = None
  /\ (forall x, xhrRef (comp w) = Some x -> is_inflight x w' = false).
Proof.
  intros w w'. assert (H : preview_inv w) by (apply preview_inv_run; reflexivity).
  clearbody w. subst w'. unfold unmount.
  destruct (xhrRef (comp w)) as [x|] eqn:Ex.
  - set (w1 := upd (set_xhrRef None) (xhr_abort x w)).
    assert (H1 : preview_inv w1)
      by (apply preview_inv_upd; [reflexivity | apply preview_inv_xhr_abort, H]).
    rewrite (release_preview_eq w1 H1).
    assert (Hx : is_inflight x w1 = false).
    { subst w1. unfold is_inflight, xhr_abort. simpl.
      destruct (is_inflight x w) eqn:Ei.
      - rewrite inflight_handleUploadError. apply (is_inflight_finish x (log (XhrAbort x) w)).
      - exact Ei. }
    destruct w1 as [[] ? ? ? ? ?] eqn:Ew1. simpl.
    assert (Hr : xhrRef0 = None)
      by (apply (f_equal (fun w => xhrRef (comp w))) in Ew1; simpl in Ew1;
          rewrite <- Ew1; reflexivity).
    repeat split; auto. intros y [= <-]. exact Hx.
  - rewrite (release_preview_eq w H). destruct w as [[] ? ? ? ? ?]. simpl in *.
    repeat split; auto. discriminate.
Qed.

Lemma unmount_releases_resources_witness :
  let w := run_actions (ChatBox.init "lobby" "ana") (init_world true)
             [Select (mkFile "image/png" 1000)] in
  xhrRef (comp w) = Some 1%nat /\ is_inflight 1 w = true
  /\ live (unmount w) = [] /\ is_inflight 1 (unmount w) = false.
Proof.
  intros w. pose proof (unmount_releases_resources true (ChatBox.init "lobby" "ana")
    [Select (mkFile "image/png" 1000)]) as [H1 [_ [_ H4]]].
  split; [vm_compute; reflexivity|]. split; [vm_compute; reflexivity|].
  split; [exact H1|]. apply H4. vm_compute. reflexivity.
Defined.

(** X9: a file that passes validation while the Cloudinary variables are
    missing gets a preview URL that is revoked again at once: the composer
    shows the configuration error, nothing is sent and no object URL is
    left alive. *)
Theorem missing_config_fails_without_request (f : File) (w : World) :
  preview_inv w -> configPresent w = false -> validateFile f (kind_of f) = None ->
  let w' := handleFile f w in
  upload_status (comp w') = Failed
  /\ error (comp w') = Some "Cloudinary configuration is missing"%string
  /\ inflight w' = inflight w /\ live w' = [] /\ previewUrlRef (comp w') = None
  /\ effects w' = effects w ++ revoke_held w
                  ++ [CreateObjectURL (fresh w); RevokeObjectURL (fresh w)].
Proof.
  intros H Hc Hv w'. subst w'. unfold handleFile. rewrite Hv.
  rewrite release_preview_eq by (destruct w as [[] ? ? ? ? ?]; exact H).
  unfold startMediaUpload, createObjectURL. unfold revoke_held.
  destruct w as [[] ? ? ? ? cfg]. simpl in Hc. subst cfg.
  cbn -[handleUploadError].
  rewrite handleUploadError_eq by (unfold preview_inv; reflexivity).
  unfold revoke_held. simpl. rewrite <- !app_assoc. repeat split; reflexivity.
Qed.

Lemma missing_config_fails_without_request_witness :
  live (handleFile (mkFile "image/png" 1000) (init_world false)) = [].
Proof.
  apply (missing_config_fails_without_request (mkFile "image/png" 1000)
           (init_world false)); reflexivity.
Defined.

(** X10: a valid file with the configuration present replaces the old
    preview by a fresh object URL and sends one request, recorded in
    [xhrRef] and in flight with the file's kind and that preview. *)
Theorem valid_file_starts_one_upload (f : File) (w : World) :
  preview_inv w -> configPresent w = true -> validateFile f (kind_of f) = None ->
  let u := fresh w in
  let w' := handleFile f w in
  upload_status (comp w') = Uploading /\ uploadProgress (comp w') = 0
  /\ error (comp w') = None /\ imageUrl (comp w') = None /\ videoUrl (comp w') = None
  /\ previewUrl (comp w') = Some u /\ previewKind (comp w') = Some (kind_of f)
  /\ previewUrlRef (comp w') = Some u /\ live w' = [u]
  /\ xhrRef (comp w') = Some (S u)
  /\ inflight w' = inflight w ++ [(S u, kind_of f, u)]
  /\ effects w' = effects w ++ revoke_held w
                  ++ [CreateObjectURL u; XhrSend (S u) (kind_of f)].
Proof.
  intros H Hc Hv u w'. subst u w'. unfold handleFile. rewrite Hv.
  rewrite release_preview_eq by (destruct w as [[] ? ? ? ? ?]; exact H).
  unfold startMediaUpload, createObjectURL. unfold revoke_held.
  destruct w as [[] ? ? ? ? cfg]. simpl in *. subst cfg. simpl.
  rewrite <- !app_assoc. repeat split; reflexivity.
Qed.

Lemma valid_file_starts_one_upload_witness :
  inflight (handleFile (mkFile "video/mp4" 1000) (init_world true))
  = [(1%nat, Video, 0%nat)].
Proof.
  apply (valid_file_starts_one_upload (mkFile "video/mp4" 1000)
           (init_world true)); reflexivity.
Defined.

Lemma prefix_append (s1 s2 : string) : String.prefix s1 (String.append s1 s2) = true.
Proof.
  induction s1 as [|c s1 IH]; simpl.
  - destruct s2; reflexivity.
  - destruct (ascii_dec c c); [exact IH | contradiction].
Qed.

(** X11: when the request of the current preview loads with status 200 and a
    body with a non-empty [secure_url], the URL lands in the field of the
    upload's kind, the other field is cleared, the preview is revoked and
    the composer shows the completed attachment. *)
Theorem upload_success_completes (cs : ChatBox.ChatState) (w : World) (x p : nat)
  (k : Kind) (url stext : string) (e bm : option string) :
  preview_inv w -> previewUrlRef (comp w) = Some p ->
  find_inflight x w = Some (x, k, p) -> url <> ""%string ->
  let w' := act cs w (XhrLoad x (mkResponse 200 stext (Some (mkBody (Some url) e bm)))) in
  upload_status (comp w') = Completed
  /\ (imageUrl (comp w'), videoUrl (comp w'))
     = match k with Image => (Some url, None) | Video => (None, Some url) end
  /\ error (comp w') = None /\ previewUrl (comp w') = None
  /\ previewUrlRef (comp w') = None /\ live w' = []
  /\ is_inflight x w' = false /\ effects w' = effects w ++ [RevokeObjectURL p].
Proof.
  intros H Hr Hf Hu w'.
  assert (Hx : is_inflight x w' = false).
  { subst w'. unfold is_inflight. simpl. rewrite Hf, inflight_onload.
    apply is_inflight_finish. }
  subst w'. simpl in *. rewrite Hf in *. clear Hf.
  apply String.eqb_neq in Hu.
  destruct w as [[? ? ? ? ? ? ? ? ref ?] ? lv ? ? ?]. simpl in *. subst ref.
  unfold preview_inv in H. simpl in H. subst lv.
  unfold xhr_onload, revokeObjectURL in *. simpl in *.
  destruct k; simpl in *; rewrite decide_True in * by reflexivity; simpl in *;
    destruct (Nat.eq_dec p p); try contradiction;
    unfold upload_status; cbn; rewrite ?Hu; repeat split; auto.
Qed.

Lemma upload_success_completes_witness :
  let w := handleFile (mkFile "image/png" 1000) (init_world true) in
  upload_status (comp (act (ChatBox.init "lobby" "ana") w
    (XhrLoad 1 (mkResponse 200 "OK" (Some (mkBody (Some "https://c/x.png"%string) None None))))))
  = Completed.
Proof.
  intros w. apply (upload_success_completes (ChatBox.init "lobby" "ana") w 1 0 Image);
    [vm_compute; reflexivity .. | discriminate].
Defined.

(** X12: a request in flight that loads with a status other than 200 leaves
    the composer in the failed state with ["Upload failed: "] followed by
    the body's [error.message] or [message], else the status text, else
    ["Unknown error"]; one that fails at the network level leaves it failed
    with ["Network error during upload"]; either way the preview is revoked
    and the request finished. *)
Theorem upload_failure_releases_preview (cs : ChatBox.ChatState) (w : World)
  (x : nat) (resp : Response) :
  preview_inv w -> is_inflight x w = true -> status resp <> 200 ->
  failed_cleanly (failure_message resp) x (act cs w (XhrLoad x resp))
  /\ String.prefix "Upload failed: " (failure_message resp) = true
  /\ failed_cleanly "Network error during upload" x (act cs w (XhrError x)).
Proof.
  intros H Hin Hst.
  destruct (find_inflight_of_is_inflight x w Hin) as (k & p & Hf).
  simpl. rewrite Hf. split; [|split].
  - unfold xhr_onload. apply Z.eqb_neq in Hst. rewrite Hst.
    rewrite (handleUploadError_eq _ _ (preview_inv_finish x w H)).
    pose proof (is_inflight_finish x w) as Hi.
    unfold failed_cleanly, is_inflight in *. cbn. repeat split; auto.
  - unfold failure_message. destruct (detailed_message (body resp)); apply prefix_append.
  - apply failed_cleanly_handleUploadError.
    + apply preview_inv_finish, H.
    + apply is_inflight_finish.
Qed.

Lemma upload_failure_releases_preview_witness :
  let w := handleFile (mkFile "image/png" 1000) (init_world true) in
  let resp := mkResponse 500 "Internal Server Error" (Some (mkBody None None None)) in
  error (comp (act (ChatBox.init "lobby" "ana") w (XhrLoad 1 resp)))
  = Some "Upload failed: Internal Server Error"%string
  /\ live (act (ChatBox.init "lobby" "ana") w (XhrLoad 1 resp)) = []
  /\ live (act (ChatBox.init "lobby" "ana") w (XhrError 1)) = [].
Proof.
  intros w resp.
  destruct (upload_failure_releases_preview (ChatBox.init "lobby" "ana") w 1 resp)
    as [(_ & He & _ & _ & H1 & _) [_ (_ & _ & _ & _ & H2 & _)]];
    [vm_compute; reflexivity | vm_compute; reflexivity | discriminate | ].
  split; [rewrite He; reflexivity|]. split; [exact H1 | exact H2].
Defined.



(** X13: an accepted send hands the trimmed text and the uploaded URLs to
    [onSend], then empties the text, both URL fields and the error, and
    revokes the preview; the composer is idle again unless an upload is
    still running, and no request is touched. *)
Theorem send_clears_composer (cs : ChatBox.ChatState) (w : World) :
  preview_inv w ->
  negb (String.eqb (trim (message (comp w))) "") || truthy (imageUrl (comp w))
    || truthy (videoUrl (comp w)) = true ->
  let '(cs', w') := handleSend cs w in
  cs' = ChatBox.sendMessage (trim (message (comp w))) (or_undefined (imageUrl (comp w)))
          (or_undefined (videoUrl (comp w))) cs
  /\ message (comp w') = ""%string /\ imageUrl (comp w') = None
  /\ videoUrl (comp w') = None /\ error (comp w') = None
  /\ previewUrl (comp w') = None /\ previewKind (comp w') = None
  /\ previewUrlRef (comp w') = None /\ live w' = []
  /\ inflight w' = inflight w /\ xhrRef (comp w') = xhrRef (comp w)
  /\ effects w' = effects w ++ revoke_held w
  /\ upload_status (comp w') = if uploading (comp w) then Uploading else Idle.
Proof.
  intros H Hacc. unfold handleSend. rewrite Hacc.
  rewrite release_preview_eq
    by (destruct w as [[] ? ? ? ? ?]; exact H).
  unfold revoke_held. destruct w as [[] ? ? ? ? ?]. cbn.
  repeat split; auto.
Qed.

Lemma send_clears_composer_witness :
  let w := upd (set_message " hi ") (init_world true) in
  fst (handleSend (ChatBox.init "lobby" "ana") w)
  = ChatBox.sendMessage "hi" None None (ChatBox.init "lobby" "ana").
Proof.
  intros w.
  pose proof (send_clears_composer (ChatBox.init "lobby" "ana") w) as Hs.
  destruct (handleSend (ChatBox.init "lobby" "ana") w) as [cs' w'] eqn:E.
  destruct Hs as [-> _]; [reflexivity | vm_compute; reflexivity | ].
  reflexivity.
Defined.

End ComposerExtra.
